(** * Carbon Buddy chatbot: response resolution, offline matcher, carbon score

    Shallow embedding of [chatbot.py]:
    - [offline_reply]            (lines 25-34), the keyword matcher;
    - [get_gemini_response]      (lines 37-47), the response resolver;
    - [compute_carbon_score]     (lines 138-144), the sidebar score;
    - the chat-input block       (lines 165-172), which grows the history.
    - the mode selector          (lines 9-22), the history initialisation
      (lines 133-134), the sidebar (lines 146-150) and the transcript
      (lines 175-179), put together as one run of the script.

    Python [str] values are sequences of Unicode code points and are modelled
    as [list N].  Python [int] is unbounded and is modelled as [Z].

    The script talks to two libraries that are not part of it.  The remote
    conversation is opaque: [send_message] is a parameter that returns a
    response object or raises, and changes the conversation as it likes; the
    response object in turn may or may not have a [text] attribute, and
    reading it or printing the object may raise.  What is raised is an
    instance of [Exception], the errors that [except Exception] is written
    for; interpreter signals such as [KeyboardInterrupt], which derive from
    [BaseException] alone, are not modelled.  The same holds for the calls
    that set the client up, [configure], [GenerativeModel] and [start_chat].
    The user interface is taken to work: [st.error], [st.info],
    [st.warning], [st.metric], [st.progress] and [st.chat_message] show what
    they are given and return; the page set-up and the style sheet, which do
    not depend on the session, are not modelled. *)

From Stdlib Require Import List Bool NArith ZArith Lia Ascii String.
From Stdlib Require Import DecimalString.
Import ListNotations.

Set Implicit Arguments.

(** ** Python strings *)

Module PyStr.

(** A Python [str]: the list of its code points. *)
Definition str := list N.

(** A literal made of ASCII characters only. *)
Definition py (s : string) : str := map N_of_ascii (list_ascii_of_string s).

Definition is_ascii (c : N) : bool := (c <? 128)%N.

(** Lowercase mapping of a code point below 128: ['A'..'Z'] move by 32,
    every other code point is kept. *)
Definition ascii_lower (c : N) : N :=
  if ((65 <=? c) && (c <=? 90))%N then (c + 32)%N else c.

Definition str_eqb (a b : str) : bool :=
  if list_eq_dec N.eq_dec a b then true else false.

(** [s.startswith(k)]. *)
Fixpoint startswith (s k : str) {struct k} : bool :=
  match k with
  | [] => true
  | x :: k' =>
      match s with
      | [] => false
      | y :: s' => (x =? y)%N && startswith s' k'
      end
  end.

(** [k in s] for two strings: [k] occurs in [s] as a contiguous run. *)
Fixpoint contains (s k : str) : bool :=
  startswith s k ||
  match s with
  | [] => false
  | _ :: s' => contains s' k
  end.

Section Lower.

(** [str.lower] maps a code point below 128 by [ascii_lower].  For the other
    code points it follows the Unicode character database, which gives one to
    three code points and, for capital sigma, looks at the neighbouring
    characters.  The database is not part of the program and is taken as a
    parameter: [unicode_lower before c after] is the lowercase of the
    non-ASCII code point [c] standing between [before] and [after]. *)
Variable unicode_lower : str -> N -> str -> str.

Fixpoint lower_from (before s : str) : str :=
  match s with
  | [] => []
  | c :: after =>
      (if is_ascii c then [ascii_lower c] else unicode_lower before c after)
        ++ lower_from (before ++ [c]) after
  end.

(** [s.lower()]. *)
Definition lower (s : str) : str := lower_from [] s.

End Lower.

(** A database that keeps every non-ASCII code point, used to run the model
    on concrete inputs. *)
Definition keep_non_ascii : str -> N -> str -> str := fun _ c _ => [c].

End PyStr.

Import PyStr.

(** ** Offline fallback matcher (lines 25-34) *)

Module Offline.

Definition joke_keywords : list str :=
  [py "joke"; py "funny"; py "make me laugh"].

Definition story_keywords : list str :=
  [py "story"; py "bedtime"; py "tell me a story"].

Definition riddle_keywords : list str :=
  [py "riddle"; py "puzzle"].

(** The four replies.  The joke ends with U+1F604, the story with U+2728, and
    the generic reply has an em dash U+2014 in the middle. *)
Definition joke_string : str :=
  py "Why did the tomato blush? Because it saw the salad dressing! "
    ++ [128516%N].

Definition story_string : str :=
  py "Once upon a time a little star learned to shine. The end. "
    ++ [10024%N].

Definition riddle_string : str :=
  py "What has keys but can't open locks? A keyboard!".

Definition generic_string : str :=
  py "I can't reach the helper brain right now, but I'd love to help "
    ++ [8212%N]
    ++ py " try rephrasing your question or check your API key.".

(** [any(k in q for k in keywords)]. *)
Definition any_in (q : str) (keywords : list str) : bool :=
  existsb (fun k => contains q k) keywords.

Section Matcher.

Variable unicode_lower : str -> N -> str -> str.

Definition offline_reply (user_query : str) : str :=
  let q := lower unicode_lower user_query in
  if any_in q joke_keywords then joke_string
  else if any_in q story_keywords then story_string
  else if any_in q riddle_keywords then riddle_string
  else generic_string.

End Matcher.

End Offline.

Import Offline.

(** ** Session state, exceptions and the remote conversation *)

Module Session.

(** What a call can raise.  [getattr] with a default tells [AttributeError]
    from the rest, and [except Exception] catches both; [exn_str] is
    [str(e)]. *)
Inductive exn : Type :=
| AttributeError (msg : str)
| Error (msg : str).

Definition exn_str (e : exn) : str :=
  match e with
  | AttributeError msg => msg
  | Error msg => msg
  end.

(** Outcome of a Python call: a value, or a raised exception. *)
Inductive result (A : Type) : Type :=
| Ok (a : A)
| Raise (e : exn).

Arguments Ok {A} a.
Arguments Raise {A} e.

(** The response object returned by [send_message], seen through the two
    operations the program applies to it: reading the attribute [text], a
    string when the read succeeds, and calling [str] on the object. *)
Record response : Type := {
  text_attr : result str;
  str_of : result str
}.

(** [getattr(obj, "text", default)] given the outcome of the attribute
    lookup: only [AttributeError] is replaced by the default. *)
Definition getattr_default (lookup : result str) (default : str) : result str :=
  match lookup with
  | Ok v => Ok v
  | Raise (AttributeError _) => Ok default
  | Raise e => Raise e
  end.

Inductive role_t : Type := user | assistant.

(** A history entry [{"role": ..., "text": ...}]. *)
Record message : Type := {
  role : role_t;
  text : str
}.

(** Calls that leave the process: a message sent to the remote conversation,
    an error notice shown by [st.error]. *)
Inductive event : Type :=
| Sent (user_query : str)
| StError (notice : str).

Section World.

(** The remote conversation context [st.session_state.chat_session] keeps its
    own turn history; its state and [send_message] are opaque. *)
Variable chat : Type.
Variable send_message : chat -> str -> result response * chat.
Variable unicode_lower : str -> N -> str -> str.

Record world : Type := {
  use_gemini : bool;
  chat_session : chat;
  chat_history : list message;
  trace : list event
}.

(** State and exception monad of the script. *)
Definition M (A : Type) : Type := world -> result A * world.

Definition ret {A : Type} (a : A) : M A := fun w => (Ok a, w).

Definition bind {A B : Type} (m : M A) (k : A -> M B) : M B :=
  fun w =>
    match m w with
    | (Ok a, w') => k a w'
    | (Raise e, w') => (Raise e, w')
    end.

Definition lift {A : Type} (r : result A) : M A := fun w => (r, w).

(** [try: body  except Exception as e: handler(e)]. *)
Definition try_except {A : Type} (body : M A) (handler : exn -> M A) : M A :=
  fun w =>
    match body w with
    | (Ok a, w') => (Ok a, w')
    | (Raise e, w') => handler e w'
    end.

Notation "x <- m ;; k" := (bind m (fun x => k))
  (at level 100, m at next level, right associativity).
Notation "m ;;; k" := (bind m (fun _ => k))
  (at level 100, right associativity).

(** The three ways the script changes the world. *)
Definition set_chat_session (c : chat) (w : world) : world :=
  {| use_gemini := use_gemini w;
     chat_session := c;
     chat_history := chat_history w;
     trace := trace w |}.

Definition add_event (ev : event) (w : world) : world :=
  {| use_gemini := use_gemini w;
     chat_session := chat_session w;
     chat_history := chat_history w;
     trace := trace w ++ [ev] |}.

Definition add_message (m : message) (w : world) : world :=
  {| use_gemini := use_gemini w;
     chat_session := chat_session w;
     chat_history := chat_history w ++ [m];
     trace := trace w |}.

(** Reading the module variable [use_gemini]. *)
Definition read_use_gemini : M bool := fun w => (Ok (use_gemini w), w).

(** [st.session_state.chat_session.send_message(user_query)]: the call is
    recorded, and the conversation moves on whether it returns or raises. *)
Definition chat_send_message (user_query : str) : M response :=
  fun w =>
    let (r, c) := send_message (chat_session w) user_query in
    (r, set_chat_session c (add_event (Sent user_query) w)).

(** [st.error(notice)]. *)
Definition st_error (notice : str) : M unit :=
  fun w => (Ok tt, add_event (StError notice) w).

(** [st.session_state.chat_history.append(m)]. *)
Definition history_append (m : message) : M unit :=
  fun w => (Ok tt, add_message m w).

(** *** Response resolver (lines 37-47) *)

(** The [try] body when [use_gemini] holds.  The default [str(response)] is
    an argument of [getattr], so it is computed before the attribute is
    read. *)
Definition remote_exchange (user_query : str) : M str :=
  response <- chat_send_message user_query ;;
  default <- lift (str_of response) ;;
  lift (getattr_default (text_attr response) default).

Definition error_notice (e : exn) : str :=
  py "An error occurred while getting the response: " ++ exn_str e.

Definition get_gemini_response (user_query : str) : M str :=
  try_except
    (online <- read_use_gemini ;;
     if online then remote_exchange user_query
     else ret (offline_reply unicode_lower user_query))
    (fun e =>
       st_error (error_notice e) ;;;
       ret (offline_reply unicode_lower user_query)).

(** *** Chat input and submission (lines 165-172) *)

(** [st.chat_input] gives [None] or the submitted text; [if user_input:]
    holds for a non-empty string. *)
Definition truthy (user_input : option str) : bool :=
  match user_input with
  | Some (_ :: _) => true
  | _ => false
  end.

Definition chat_input_block (user_input : option str) : M unit :=
  match user_input with
  | Some input =>
      if truthy user_input then
        history_append {| role := user; text := input |} ;;;
        gemini_response <- get_gemini_response input ;;
        history_append {| role := assistant; text := gemini_response |}
      else ret tt
  | None => ret tt
  end.

End World.

(** *** Carbon score (lines 138-144) *)

Definition len {A : Type} (l : list A) : Z := Z.of_nat (List.length l).

Definition compute_carbon_score (history : list message) : Z :=
  let base := 12%Z in
  let per_message := 1%Z in
  let score := (base + len history * per_message)%Z in
  Z.min (Z.max score 0) 100.

End Session.

Import Session.

(** ** Remote conversations to run the model on *)

Module Scenario.

(** The state of these conversations counts the calls received. *)

(** Every call fails with a service error. *)
Definition unreachable_remote (n : nat) (user_query : str)
  : result response * nat :=
  (Raise (Error (py "503 Service Unavailable")), S n).

(** Every call answers with the query itself as text. *)
Definition echo_remote (n : nat) (user_query : str)
  : result response * nat :=
  (Ok {| text_attr := Ok user_query; str_of := Ok (py "<response>") |}, S n).

(** Every call returns an object that has no attribute [text]. *)
Definition textless_remote (n : nat) (user_query : str)
  : result response * nat :=
  (Ok {| text_attr := Raise (AttributeError (py "text"));
         str_of := Ok (py "<response>") |}, S n).

(** A session that has just started: no call made, empty history. *)
Definition new_session (online : bool) : world nat :=
  {| use_gemini := online;
     chat_session := 0%nat;
     chat_history := [];
     trace := [] |}.

End Scenario.

Import Scenario.

(** ** The specification's vocabulary *)

Module Spec.

(** [clamp(x, lo, hi)]. *)
Definition clamp (x lo hi : Z) : Z :=
  if (x <? lo)%Z then lo else if (hi <? x)%Z then hi else x.

(** Two strings that differ at most in the case of their ASCII letters. *)
Definition same_ignoring_case (a b : str) : Prop :=
  map ascii_lower a = map ascii_lower b.

(** The query contains the keyword as a substring, in any letter case. *)
Definition occurs_any_case (k q : str) : Prop :=
  exists before w after,
    q = before ++ w ++ after /\ same_ignoring_case w k.

(** The query contains one of the keywords of a set, in any letter case. *)
Definition mentions (keywords : list str) (q : str) : Prop :=
  exists k, In k keywords /\ occurs_any_case k q.

Definition role_eqb (a b : role_t) : bool :=
  match a, b with
  | user, user => true
  | assistant, assistant => true
  | _, _ => false
  end.

Definition other_role (r : role_t) : role_t :=
  match r with
  | user => assistant
  | assistant => user
  end.

(** The roles alternate along the history, starting with [next]. *)
Fixpoint alternates_from (next : role_t) (h : list message) : bool :=
  match h with
  | [] => true
  | m :: h' => role_eqb (role m) next && alternates_from (other_role next) h'
  end.

(** A history made of user/assistant pairs: it starts with a user entry,
    alternates strictly, and ends with an assistant entry. *)
Definition alternating (h : list message) : bool :=
  alternates_from user h && Nat.even (List.length h).

End Spec.

Import Spec.

(** ** One run of the script, and a session of runs *)

Module Script.

(** What a run puts on the page, in the order of the calls.  The page
    header, the style sheet and the tips card are the same in every run and
    are left out.  [StProgress n d] stands for [st.progress(n / d)]: the
    argument is the quotient of two integers. *)
Inductive ui_event : Type :=
| StInfo (notice : str)
| StWarning (notice : str)
| StMetric (label value : str)
| StProgress (numerator denominator : Z)
| StChatMessage (name : role_t) (avatar body : str).

(** The client library: [genai.configure], [genai.GenerativeModel],
    [model.start_chat] and the conversation's [send_message].  Each call
    returns or raises as the library and the network decide. *)
Record client (model chat : Type) : Type := {
  configure : str -> result unit;
  GenerativeModel : str -> result model;
  start_chat : model -> result chat;
  remote_send : chat -> str -> result response * chat
}.

(** The two keys the script keeps in [st.session_state]; a key may be
    absent. *)
Record session_state (chat : Type) : Type := {
  ss_chat_session : option chat;
  ss_chat_history : option (list message)
}.

(** What a run leaves behind. *)
Record run_result (chat : Type) : Type := {
  outcome : result unit;
  state_after : session_state chat;
  calls : list event;
  page : list ui_event
}.

Definition and_then {A B : Type} (r : result A) (k : A -> result B)
  : result B :=
  match r with
  | Ok a => k a
  | Raise e => Raise e
  end.

Definition init_warning (e : exn) : str :=
  py "Could not initialize Gemini API; falling back to offline mode. ("
    ++ exn_str e ++ py ")".

Definition offline_info : str :=
  py "Running in offline mode "
    ++ [8212%N]
    ++ py " no GOOGLE_API_KEY found."
    ++ py " The chatbot will use simple fallback replies.".

Definition metric_label : str :=
  py "Estimated footprint (kg CO" ++ [8322%N] ++ py "/day)".

(** [f"{n}"] for an integer. *)
Definition decimal (n : Z) : str := py (NilZero.string_of_int (Z.to_int n)).

(** The avatar of line 177: U+1F9D1 U+200D U+1F4BB for the user, U+1F916
    otherwise. *)
Definition avatar_of (name : role_t) : str :=
  if role_eqb name user then [129489%N; 8205%N; 128187%N] else [129302%N].

Section Run.

Variables model chat : Type.
Variable unicode_lower : str -> N -> str -> str.

(** *** Mode selector (lines 9-22) *)

(** The [try] body: the conversation is started only when the session has
    none, and the key is set only when [start_chat] has returned. *)
Definition init_remote (lib : client model chat) (api_key : str)
    (ss : session_state chat) : result (session_state chat) :=
  and_then (configure lib api_key) (fun _ =>
  and_then (GenerativeModel lib (py "gemini-2.5-flash")) (fun m =>
  match ss_chat_session ss with
  | Some _ => Ok ss
  | None =>
      and_then (start_chat lib m) (fun c =>
      Ok {| ss_chat_session := Some c;
            ss_chat_history := ss_chat_history ss |})
  end)).

(** The value of [use_gemini], the session and the notices after lines
    9-22. *)
Definition mode_selector (lib : client model chat) (api_key : option str)
    (ss : session_state chat) : bool * session_state chat * list ui_event :=
  match api_key with
  | Some key =>
      if truthy api_key then
        match init_remote lib key ss with
        | Ok ss' => (true, ss', [])
        | Raise e => (false, ss, [StWarning (init_warning e)])
        end
      else (false, ss, [StInfo offline_info])
  | None => (false, ss, [StInfo offline_info])
  end.

(** *** History initialisation (lines 133-134) *)

Definition initial_history (ss : session_state chat) : list message :=
  match ss_chat_history ss with
  | Some history => history
  | None => []
  end.

(** *** Sidebar (lines 146-150) *)

Definition sidebar (history : list message) : list ui_event :=
  let current_score := compute_carbon_score history in
  [StMetric metric_label (decimal current_score);
   StProgress current_score 100].

(** *** Transcript (lines 175-179) *)

Definition display (history : list message) : list ui_event :=
  map (fun m => StChatMessage (role m) (avatar_of (role m)) (text m))
    history.

(** *** The run *)

(** [st.session_state.chat_session.send_message]: reading a key that is
    absent raises [AttributeError]. *)
Definition session_send (lib : client model chat) (c : option chat)
    (user_query : str) : result response * option chat :=
  match c with
  | Some c0 =>
      let (r, c1) := remote_send lib c0 user_query in (r, Some c1)
  | None => (Raise (AttributeError (py "chat_session")), None)
  end.

(** The script from top to bottom: mode, history, sidebar, chat input,
    transcript.  The sidebar is drawn before the input is handled. *)
Definition script_run (lib : client model chat)
    (api_key user_input : option str) (ss : session_state chat)
  : run_result chat :=
  let '(online, ss1, notices) := mode_selector lib api_key ss in
  let history := initial_history ss1 in
  let w := {| use_gemini := online;
              chat_session := ss_chat_session ss1;
              chat_history := history;
              trace := [] |} in
  let (r, w') :=
    chat_input_block (session_send lib) unicode_lower user_input w in
  {| outcome := r;
     state_after := {| ss_chat_session := chat_session w';
                       ss_chat_history := Some (chat_history w') |};
     calls := trace w';
     page := notices ++ sidebar history ++
             match r with
             | Ok _ => display (chat_history w')
             | Raise _ => []
             end |}.

(** The world in which a run handles the chat input: the mode and the
    conversation the selector left, the stored history, no call yet. *)
Definition run_world (lib : client model chat) (api_key : option str)
    (ss : session_state chat) : world (option chat) :=
  {| use_gemini := fst (fst (mode_selector lib api_key ss));
     chat_session :=
       ss_chat_session (snd (fst (mode_selector lib api_key ss)));
     chat_history := initial_history ss;
     trace := [] |}.

(** One interaction: the state of the library and of the environment at
    that time, and what the user submitted. *)
Record interaction : Type := {
  lib_now : client model chat;
  api_key_now : option str;
  user_input_now : option str
}.

(** The script runs again from the top at every interaction; only
    [st.session_state] is carried over. *)
Fixpoint session_runs (runs : list interaction) (ss : session_state chat)
  : session_state chat :=
  match runs with
  | [] => ss
  | i :: rest =>
      session_runs rest
        (state_after
           (script_run (lib_now i) (api_key_now i) (user_input_now i) ss))
  end.

End Run.

(** A session in which the script has not run yet. *)
Definition fresh (chat : Type) : session_state chat :=
  {| ss_chat_session := None; ss_chat_history := None |}.

(** A library whose every call succeeds, the conversation echoing the
    query, and one whose [configure] rejects the key. *)
Definition working_client : client unit nat :=
  {| configure := fun _ => Ok tt;
     GenerativeModel := fun _ => Ok tt;
     start_chat := fun _ => Ok 0%nat;
     remote_send := echo_remote |}.

Definition rejecting_client : client unit nat :=
  {| configure := fun _ => Raise (Error (py "API key not valid"));
     GenerativeModel := fun _ => Ok tt;
     start_chat := fun _ => Ok 0%nat;
     remote_send := echo_remote |}.

End Script.

Import Script.

(** * Properties *)

Unset Implicit Arguments.

(** ** Substring search *)

Lemma startswith_app (k rest : str) : startswith (k ++ rest) k = true.
Proof.
  induction k as [|x k IH]; simpl; [reflexivity|].
  now rewrite N.eqb_refl, IH.
Qed.

Lemma contains_skip (a s k : str) :
  contains s k = true -> contains (a ++ s) k = true.
Proof.
  intros H. induction a as [|x a IH]; simpl; [exact H|].
  rewrite IH. apply orb_true_r.
Qed.

Lemma contains_middle (a k b : str) : contains (a ++ k ++ b) k = true.
Proof.
  apply contains_skip. destruct (k ++ b) eqn:E; simpl.
  - destruct k; [reflexivity | discriminate].
  - rewrite <- E, startswith_app. reflexivity.
Qed.

Lemma startswith_split (s k : str) :
  startswith s k = true -> exists rest, s = k ++ rest.
Proof.
  revert s. induction k as [|x k IH]; intros s H; simpl in *.
  - now exists s.
  - destruct s as [|y s]; [discriminate|].
    apply andb_prop in H. destruct H as [Hxy Hk].
    apply N.eqb_eq in Hxy. subst y.
    destruct (IH _ Hk) as [rest ->]. now exists rest.
Qed.

Lemma contains_split (s k : str) :
  contains s k = true -> exists a b, s = a ++ k ++ b.
Proof.
  induction s as [|y s IH]; simpl; intros H.
  - rewrite orb_false_r in H. destruct (startswith_split _ _ H) as [rest E].
    exists [], rest. exact E.
  - apply orb_prop in H. destruct H as [H|H].
    + destruct (startswith_split _ _ H) as [rest E]. exists [], rest. exact E.
    + destruct (IH H) as (a & b & ->). now exists (y :: a), b.
Qed.

(** [k in s] holds exactly when [s] splits around a copy of [k]. *)
Lemma contains_iff (s k : str) :
  contains s k = true <-> exists a b, s = a ++ k ++ b.
Proof.
  split; [apply contains_split|].
  intros (a & b & ->). apply contains_middle.
Qed.

(** ** Lowercasing *)

Section LowerFacts.

Variable unicode_lower : str -> N -> str -> str.

(** The lowercase of a string ends with the lowercase of each of its
    suffixes, taken in its context. *)
Lemma lower_from_suffix (before a b : str) :
  exists head,
    lower_from unicode_lower before (a ++ b) =
    head ++ lower_from unicode_lower (before ++ a) b.
Proof.
  revert before. induction a as [|c a IH]; intros before; simpl.
  - exists []. now rewrite app_nil_r.
  - destruct (IH (before ++ [c])) as [head E].
    rewrite E, <- app_assoc. simpl.
    eexists. rewrite app_assoc. reflexivity.
Qed.

(** A run of ASCII code points is lowercased one code point at a time,
    whatever stands around it. *)
Lemma lower_from_ascii_run (before w after : str) :
  forallb is_ascii w = true ->
  lower_from unicode_lower before (w ++ after) =
  map ascii_lower w ++ lower_from unicode_lower (before ++ w) after.
Proof.
  revert before. induction w as [|c w IH]; intros before H; simpl in *.
  - now rewrite app_nil_r.
  - apply andb_prop in H. destruct H as [Hc Hw].
    rewrite Hc, IH, <- app_assoc by exact Hw. reflexivity.
Qed.

End LowerFacts.

Lemma ascii_lower_is_ascii (c : N) :
  is_ascii (ascii_lower c) = is_ascii c.
Proof.
  unfold is_ascii, ascii_lower.
  destruct ((65 <=? c) && (c <=? 90))%N eqn:E; [|reflexivity].
  apply andb_prop in E. destruct E as [E1 E2].
  apply N.leb_le in E1, E2.
  destruct (N.ltb_spec (c + 32) 128), (N.ltb_spec c 128); try reflexivity; lia.
Qed.

Lemma same_ignoring_case_ascii (w k : str) :
  same_ignoring_case w k ->
  forallb is_ascii k = true -> forallb is_ascii w = true.
Proof.
  unfold same_ignoring_case. revert k.
  induction w as [|c w IH]; intros [|d k] E Hk; simpl in *;
    try reflexivity; try discriminate.
  injection E as Ec Ew. apply andb_prop in Hk. destruct Hk as [Hd Hk].
  rewrite <- (ascii_lower_is_ascii c), Ec, ascii_lower_is_ascii, Hd.
  simpl. now apply IH with k.
Qed.

(** A keyword written in lowercase ASCII that occurs in the query in any
    letter case occurs verbatim in the lowercased query. *)
Lemma occurs_any_case_lower (unicode_lower : str -> N -> str -> str)
    (k q : str) :
  forallb is_ascii k = true ->
  map ascii_lower k = k ->
  occurs_any_case k q ->
  contains (lower unicode_lower q) k = true.
Proof.
  intros Hascii Hlow (before & w & after & -> & Hw).
  unfold lower.
  destruct (lower_from_suffix unicode_lower [] before (w ++ after))
    as [head ->].
  rewrite lower_from_ascii_run
    by (eapply same_ignoring_case_ascii; eassumption).
  unfold same_ignoring_case in Hw. rewrite Hw, Hlow.
  apply contains_middle.
Qed.

(** ** The offline matcher *)

Lemma str_eqb_false (a b : str) : str_eqb a b = false -> a <> b.
Proof.
  unfold str_eqb. destruct (list_eq_dec N.eq_dec a b); congruence.
Qed.

(** Every keyword is written in lowercase ASCII. *)
Lemma keywords_lowercase_ascii (k : str) :
  In k (joke_keywords ++ story_keywords ++ riddle_keywords) ->
  forallb is_ascii k = true /\ map ascii_lower k = k.
Proof.
  simpl. intros H.
  repeat (destruct H as [<- | H]; [split; vm_compute; reflexivity|]).
  destruct H.
Qed.

Lemma any_in_true (q : str) (keywords : list str) :
  any_in q keywords = true <-> exists k, In k keywords /\ contains q k = true.
Proof. unfold any_in. apply existsb_exists. Qed.

Lemma any_in_app (q : str) (k1 k2 : list str) :
  any_in q (k1 ++ k2) = any_in q k1 || any_in q k2.
Proof. unfold any_in. apply existsb_app. Qed.

Section MatcherFacts.

Variable unicode_lower : str -> N -> str -> str.

Lemma mentions_any_in (keywords : list str) (q : str) :
  incl keywords (joke_keywords ++ story_keywords ++ riddle_keywords) ->
  mentions keywords q ->
  any_in (lower unicode_lower q) keywords = true.
Proof.
  intros Hincl (k & Hk & Hocc). apply any_in_true. exists k. split; [exact Hk|].
  destruct (keywords_lowercase_ascii k (Hincl _ Hk)) as [Ha Hl].
  now apply occurs_any_case_lower.
Qed.

Lemma joke_incl :
  incl joke_keywords (joke_keywords ++ story_keywords ++ riddle_keywords).
Proof. apply incl_appl, incl_refl. Qed.

Lemma story_incl :
  incl story_keywords (joke_keywords ++ story_keywords ++ riddle_keywords).
Proof. apply incl_appr, incl_appl, incl_refl. Qed.

Lemma riddle_incl :
  incl riddle_keywords (joke_keywords ++ story_keywords ++ riddle_keywords).
Proof. apply incl_appr, incl_appr, incl_refl. Qed.

(** The four branches of [offline_reply], read off the three tests. *)
Lemma reply_joke (q : str) :
  any_in (lower unicode_lower q) joke_keywords = true ->
  offline_reply unicode_lower q = joke_string.
Proof. unfold offline_reply. now intros ->. Qed.

Lemma reply_story (q : str) :
  any_in (lower unicode_lower q) joke_keywords = false ->
  any_in (lower unicode_lower q) story_keywords = true ->
  offline_reply unicode_lower q = story_string.
Proof. unfold offline_reply. now intros -> ->. Qed.

Lemma reply_riddle (q : str) :
  any_in (lower unicode_lower q) joke_keywords = false ->
  any_in (lower unicode_lower q) story_keywords = false ->
  any_in (lower unicode_lower q) riddle_keywords = true ->
  offline_reply unicode_lower q = riddle_string.
Proof. unfold offline_reply. now intros -> -> ->. Qed.

Lemma reply_generic (q : str) :
  any_in (lower unicode_lower q) joke_keywords = false ->
  any_in (lower unicode_lower q) story_keywords = false ->
  any_in (lower unicode_lower q) riddle_keywords = false ->
  offline_reply unicode_lower q = generic_string.
Proof. unfold offline_reply. now intros -> -> ->. Qed.

End MatcherFacts.

Lemma mentions_one (k q : str) (keywords : list str) :
  In k keywords -> occurs_any_case k q -> mentions keywords q.
Proof. intros Hin Hocc. now exists k. Qed.

(** On a query of ASCII code points the Unicode database plays no part. *)
Lemma lower_ascii_query (unicode_lower : str -> N -> str -> str) (q : str) :
  forallb is_ascii q = true -> lower unicode_lower q = map ascii_lower q.
Proof.
  intros H. unfold lower.
  rewrite <- (app_nil_r q) at 1.
  rewrite lower_from_ascii_run by exact H. simpl. apply app_nil_r.
Qed.

Lemma offline_reply_ascii_query
    (unicode_lower unicode_lower' : str -> N -> str -> str) (q : str) :
  forallb is_ascii q = true ->
  offline_reply unicode_lower q = offline_reply unicode_lower' q.
Proof.
  intros H. unfold offline_reply. now rewrite !lower_ascii_query.
Qed.

(** Conversely, a keyword found in the ASCII-lowercased query occurs in the
    query in some letter case. *)
Lemma contains_lowered_occurs (k q : str) :
  map ascii_lower k = k ->
  contains (map ascii_lower q) k = true -> occurs_any_case k q.
Proof.
  intros Hlow H. apply contains_split in H. destruct H as (a & b & E).
  apply map_eq_app in E. destruct E as (qa & rest & -> & _ & E).
  apply map_eq_app in E. destruct E as (w & qb & -> & Hw & _).
  exists qa, w, qb. split; [reflexivity|].
  unfold same_ignoring_case. now rewrite Hw, Hlow.
Qed.

(** On an ASCII query the test of the code and the reading "contains a
    keyword of the set, in any letter case" agree. *)
Lemma any_in_ascii_query_iff
    (unicode_lower : str -> N -> str -> str) (keywords : list str) (q : str) :
  forallb is_ascii q = true ->
  incl keywords (joke_keywords ++ story_keywords ++ riddle_keywords) ->
  any_in (lower unicode_lower q) keywords = true <-> mentions keywords q.
Proof.
  intros Hq Hincl. split.
  - intros H. apply any_in_true in H. destruct H as (k & Hk & Hc).
    exists k. split; [exact Hk|].
    rewrite lower_ascii_query in Hc by exact Hq.
    apply contains_lowered_occurs; [|exact Hc].
    exact (proj2 (keywords_lowercase_ascii k (Hincl _ Hk))).
  - now apply mentions_any_in.
Qed.

(** C6. For every query that contains "joke" as a substring, in any letter
    case, [offline_reply] returns the joke string. *)
Theorem joke_in_any_case
    (unicode_lower : str -> N -> str -> str) (q : str) :
  occurs_any_case (py "joke") q ->
  offline_reply unicode_lower q = joke_string.
Proof.
  intros H. apply reply_joke.
  apply mentions_any_in; [apply joke_incl|].
  apply mentions_one with (py "joke"); [now left | exact H].
Qed.

Lemma joke_in_any_case_witness :
  occurs_any_case (py "joke") (py "Tell me a JoKe, please") /\
  offline_reply keep_non_ascii (py "Tell me a JoKe, please") = joke_string.
Proof.
  assert (H : occurs_any_case (py "joke") (py "Tell me a JoKe, please")).
  { exists (py "Tell me a "), (py "JoKe"), (py ", please").
    split; reflexivity. }
  split; [exact H|].
  exact (joke_in_any_case keep_non_ascii (py "Tell me a JoKe, please") H).
Defined.

(** C5. The three keyword sets are searched without regard to letter case
    and the first set that matches wins, jokes before stories before
    riddles: a query with a joke keyword and a story keyword gets the joke,
    and so does a query with a joke keyword and a riddle keyword; a query
    with a story keyword and a riddle keyword, and no joke keyword in its
    lowercase form, gets the story. *)
Theorem joke_before_story_before_riddle
    (unicode_lower : str -> N -> str -> str) (q : str) :
  (mentions joke_keywords q -> mentions story_keywords q ->
   offline_reply unicode_lower q = joke_string) /\
  (mentions joke_keywords q -> mentions riddle_keywords q ->
   offline_reply unicode_lower q = joke_string) /\
  (any_in (lower unicode_lower q) joke_keywords = false ->
   mentions story_keywords q -> mentions riddle_keywords q ->
   offline_reply unicode_lower q = story_string).
Proof.
  repeat split.
  - intros Hj _. apply reply_joke, mentions_any_in;
      [apply joke_incl | exact Hj].
  - intros Hj _. apply reply_joke, mentions_any_in;
      [apply joke_incl | exact Hj].
  - intros Hn Hs _. apply reply_story; [exact Hn|].
    apply mentions_any_in; [apply story_incl | exact Hs].
Qed.

Lemma joke_before_story_before_riddle_witness :
  mentions joke_keywords (py "A FUNNY bedtime Story") /\
  mentions story_keywords (py "A FUNNY bedtime Story") /\
  offline_reply keep_non_ascii (py "A FUNNY bedtime Story") = joke_string.
Proof.
  assert (Hj : mentions joke_keywords (py "A FUNNY bedtime Story")).
  { exists (py "funny"). split; [right; now left|].
    exists (py "A "), (py "FUNNY"), (py " bedtime Story"). split; reflexivity. }
  assert (Hs : mentions story_keywords (py "A FUNNY bedtime Story")).
  { exists (py "story"). split; [now left|].
    exists (py "A FUNNY bedtime "), (py "Story"), []. split; reflexivity. }
  split; [exact Hj | split; [exact Hs|]].
  exact (proj1 (joke_before_story_before_riddle keep_non_ascii
                  (py "A FUNNY bedtime Story")) Hj Hs).
Defined.

Lemma replies_distinct :
  NoDup [joke_string; story_string; riddle_string; generic_string].
Proof.
  assert (Hne : forall a b, str_eqb a b = false -> a = b -> False)
    by (intros a b H; exact (str_eqb_false a b H)).
  repeat constructor; simpl; intros H;
    repeat (destruct H as [H | H];
            [ revert H; apply Hne; vm_compute; reflexivity |]);
    exact H.
Qed.

(** C7, as the code has it.  A query with "story" or "bedtime" in any letter
    case gets the story string when its lowercase form has no joke keyword; a
    query with "riddle" or "puzzle" in any letter case gets the riddle string
    when its lowercase form has no joke keyword and no story keyword; a query
    whose lowercase form has none of the keywords gets the generic string. *)
Theorem story_riddle_generic_by_priority
    (unicode_lower : str -> N -> str -> str) (q : str) :
  (occurs_any_case (py "story") q \/ occurs_any_case (py "bedtime") q ->
   any_in (lower unicode_lower q) joke_keywords = false ->
   offline_reply unicode_lower q = story_string) /\
  (occurs_any_case (py "riddle") q \/ occurs_any_case (py "puzzle") q ->
   any_in (lower unicode_lower q) joke_keywords = false ->
   any_in (lower unicode_lower q) story_keywords = false ->
   offline_reply unicode_lower q = riddle_string) /\
  (any_in (lower unicode_lower q)
     (joke_keywords ++ story_keywords ++ riddle_keywords) = false ->
   offline_reply unicode_lower q = generic_string).
Proof.
  split; [|split].
  - intros Hs Hj. apply reply_story; [exact Hj|].
    apply mentions_any_in; [apply story_incl|].
    destruct Hs as [Hs | Hs].
    + apply mentions_one with (py "story"); [now left | exact Hs].
    + apply mentions_one with (py "bedtime"); [right; now left | exact Hs].
  - intros Hr Hj Hs. apply reply_riddle; [exact Hj | exact Hs |].
    apply mentions_any_in; [apply riddle_incl|].
    destruct Hr as [Hr | Hr].
    + apply mentions_one with (py "riddle"); [now left | exact Hr].
    + apply mentions_one with (py "puzzle"); [right; now left | exact Hr].
  - intros Hnone. rewrite !any_in_app in Hnone.
    apply orb_false_elim in Hnone. destruct Hnone as [Hj Hsr].
    apply orb_false_elim in Hsr. destruct Hsr as [Hs Hr].
    now apply reply_generic.
Qed.

Lemma story_riddle_generic_by_priority_witness :
  (occurs_any_case (py "bedtime") (py "BedTime, now!") /\
   any_in (lower keep_non_ascii (py "BedTime, now!")) joke_keywords = false /\
   offline_reply keep_non_ascii (py "BedTime, now!") = story_string) /\
  (occurs_any_case (py "puzzle") (py "one PUZZLE") /\
   any_in (lower keep_non_ascii (py "one PUZZLE")) joke_keywords = false /\
   any_in (lower keep_non_ascii (py "one PUZZLE")) story_keywords = false /\
   offline_reply keep_non_ascii (py "one PUZZLE") = riddle_string) /\
  (any_in (lower keep_non_ascii (py "What is 2 + 2?"))
     (joke_keywords ++ story_keywords ++ riddle_keywords) = false /\
   offline_reply keep_non_ascii (py "What is 2 + 2?") = generic_string).
Proof.
  assert (Hb : occurs_any_case (py "bedtime") (py "BedTime, now!")).
  { exists [], (py "BedTime"), (py ", now!"). split; reflexivity. }
  assert (Hp : occurs_any_case (py "puzzle") (py "one PUZZLE")).
  { exists (py "one "), (py "PUZZLE"), []. split; reflexivity. }
  split; [|split].
  - split; [exact Hb|]. split; [reflexivity|].
    exact (proj1 (story_riddle_generic_by_priority keep_non_ascii
                    (py "BedTime, now!")) (or_intror Hb) eq_refl).
  - split; [exact Hp|]. split; [reflexivity|]. split; [reflexivity|].
    exact (proj1 (proj2 (story_riddle_generic_by_priority keep_non_ascii
                           (py "one PUZZLE"))) (or_intror Hp) eq_refl eq_refl).
  - split; [reflexivity|].
    exact (proj2 (proj2 (story_riddle_generic_by_priority keep_non_ascii
                           (py "What is 2 + 2?"))) eq_refl).
Defined.

(** On an ASCII query, "none of the keywords" can be read on the query
    itself.  (Beyond ASCII the lowercase form decides: U+212A KELVIN SIGN
    lowercases to "k", so a query can spell a keyword without any of its
    ASCII case variants.) *)
Lemma ascii_query_without_keywords_gets_generic
    (unicode_lower : str -> N -> str -> str) (q : str) :
  forallb is_ascii q = true ->
  ~ mentions (joke_keywords ++ story_keywords ++ riddle_keywords) q ->
  offline_reply unicode_lower q = generic_string.
Proof.
  intros Hq Hnone.
  destruct (any_in (lower unicode_lower q)
              (joke_keywords ++ story_keywords ++ riddle_keywords)) eqn:E.
  - exfalso. apply Hnone.
    apply (any_in_ascii_query_iff unicode_lower);
      [exact Hq | apply incl_refl | exact E].
  - rewrite !any_in_app in E.
    apply orb_false_elim in E. destruct E as [Hj E].
    apply orb_false_elim in E. destruct E as [Hs Hr].
    now apply reply_generic.
Qed.

(** C7 as stated fails: "a funny story" contains "story", and the reply is
    the joke string, whatever the Unicode database, because "funny" is tested
    first; "a funny riddle" contains "riddle" and gets the joke string too. *)
Lemma story_keyword_gets_joke :
  occurs_any_case (py "story") (py "a funny story") /\
  (forall unicode_lower,
     offline_reply unicode_lower (py "a funny story") = joke_string) /\
  joke_string <> story_string /\
  occurs_any_case (py "riddle") (py "a funny riddle") /\
  (forall unicode_lower,
     offline_reply unicode_lower (py "a funny riddle") = joke_string) /\
  joke_string <> riddle_string.
Proof.
  split; [|split; [|split; [|split; [|split]]]].
  - exists (py "a funny "), (py "story"), []. split; reflexivity.
  - intros ul.
    rewrite (offline_reply_ascii_query ul keep_non_ascii) by reflexivity.
    vm_compute. reflexivity.
  - apply str_eqb_false. vm_compute. reflexivity.
  - exists (py "a funny "), (py "riddle"), []. split; reflexivity.
  - intros ul.
    rewrite (offline_reply_ascii_query ul keep_non_ascii) by reflexivity.
    vm_compute. reflexivity.
  - apply str_eqb_false. vm_compute. reflexivity.
Qed.

(** C10. [offline_reply] is a function of the query alone, defined on every
    string; its value is one of four replies, the joke, the story, the riddle
    and the generic string, which are four different strings; on the empty
    query it is the generic string. *)
Theorem offline_reply_one_of_four
    (unicode_lower : str -> N -> str -> str) (q : str) :
  In (offline_reply unicode_lower q)
     [joke_string; story_string; riddle_string; generic_string] /\
  NoDup [joke_string; story_string; riddle_string; generic_string] /\
  offline_reply unicode_lower [] = generic_string.
Proof.
  split; [|split; [exact replies_distinct | reflexivity]].
  unfold offline_reply.
  destruct (any_in _ joke_keywords); [now left|].
  destruct (any_in _ story_keywords); [right; now left|].
  destruct (any_in _ riddle_keywords); [right; right; now left|].
  right; right; right; now left.
Qed.

(** ** The response resolver *)

Section ResolverFacts.

Variable chat : Type.
Variable send_message : chat -> str -> result response * chat.
Variable unicode_lower : str -> N -> str -> str.

(** What the [try] body does when [use_gemini] holds, by the outcome of
    each of its three steps. *)
Lemma remote_exchange_cases (w : world chat) (q : str) :
  remote_exchange send_message q w =
  let (r, c) := send_message (chat_session w) q in
  (match r with
   | Raise e => Raise e
   | Ok resp =>
       match str_of resp with
       | Raise e => Raise e
       | Ok default => getattr_default (text_attr resp) default
       end
   end, set_chat_session c (add_event (Sent q) w)).
Proof.
  unfold remote_exchange, bind, chat_send_message, lift.
  destruct (send_message (chat_session w) q) as [[resp | e] c];
    [|reflexivity].
  destruct (str_of resp); reflexivity.
Qed.

Lemma resolve_online (w : world chat) (q : str) :
  use_gemini w = true ->
  get_gemini_response send_message unicode_lower q w =
  match remote_exchange send_message q w with
  | (Ok reply, w') => (Ok reply, w')
  | (Raise e, w') =>
      (Ok (offline_reply unicode_lower q),
       add_event (StError (error_notice e)) w')
  end.
Proof.
  intros Hon.
  unfold get_gemini_response, try_except, bind at 1, read_use_gemini.
  rewrite Hon.
  destruct (remote_exchange send_message q w) as [[reply | e] w'];
    reflexivity.
Qed.

Lemma resolve_offline (w : world chat) (q : str) :
  use_gemini w = false ->
  get_gemini_response send_message unicode_lower q w =
  (Ok (offline_reply unicode_lower q), w).
Proof.
  intros Hoff.
  unfold get_gemini_response, try_except, bind, read_use_gemini.
  now rewrite Hoff.
Qed.

(** The resolver never assigns [use_gemini] and never touches the history. *)
Lemma resolve_frame (w : world chat) (q : str) :
  use_gemini (snd (get_gemini_response send_message unicode_lower q w)) =
    use_gemini w /\
  chat_history (snd (get_gemini_response send_message unicode_lower q w)) =
    chat_history w.
Proof.
  destruct (use_gemini w) eqn:Hmode.
  - rewrite resolve_online, remote_exchange_cases by exact Hmode.
    destruct (send_message (chat_session w) q) as [r c].
    destruct r as [resp | e]; [|now simpl].
    destruct (str_of resp) as [d | e]; [|now simpl].
    destruct (getattr_default (text_attr resp) d); now simpl.
  - rewrite resolve_offline by exact Hmode. now simpl.
Qed.

(** Every call returns a string. *)
Lemma resolve_returns (w : world chat) (q : str) :
  exists reply,
    fst (get_gemini_response send_message unicode_lower q w) = Ok reply.
Proof.
  destruct (use_gemini w) eqn:Hmode.
  - rewrite resolve_online by exact Hmode.
    destruct (remote_exchange send_message q w) as [[reply | e] w'];
      eexists; reflexivity.
  - rewrite resolve_offline by exact Hmode. eexists; reflexivity.
Qed.

(** In online mode the first thing a call does is to send the query. *)
Lemma resolve_online_sends (w : world chat) (q : str) :
  use_gemini w = true ->
  exists later,
    trace (snd (get_gemini_response send_message unicode_lower q w)) =
    trace w ++ Sent q :: later.
Proof.
  intros Hon. rewrite resolve_online, remote_exchange_cases by exact Hon.
  destruct (send_message (chat_session w) q) as [r c].
  destruct r as [resp | e];
    [|eexists; simpl; rewrite <- app_assoc; reflexivity].
  destruct (str_of resp) as [d | e];
    [|eexists; simpl; rewrite <- app_assoc; reflexivity].
  destruct (getattr_default (text_attr resp) d);
    eexists; simpl; rewrite <- ?app_assoc; reflexivity.
Qed.

End ResolverFacts.

(** C3. In offline mode the resolver returns the matcher's reply for the
    query, and leaves the session as it was. *)
Theorem offline_mode_returns_match
    (chat : Type) (send_message : chat -> str -> result response * chat)
    (unicode_lower : str -> N -> str -> str) (w : world chat) (q : str) :
  use_gemini w = false ->
  get_gemini_response send_message unicode_lower q w =
  (Ok (offline_reply unicode_lower q), w).
Proof.
  intros Hoff.
  unfold get_gemini_response, try_except, bind, read_use_gemini.
  rewrite Hoff. unfold ret. reflexivity.
Qed.

Lemma offline_mode_returns_match_witness :
  use_gemini (new_session false) = false /\
  get_gemini_response echo_remote keep_non_ascii (py "Tell me a joke")
    (new_session false) =
  (Ok joke_string, new_session false).
Proof.
  split; [reflexivity|].
  exact (offline_mode_returns_match nat echo_remote keep_non_ascii
           (new_session false) (py "Tell me a joke") eq_refl).
Defined.

(** C1. In online mode, when the remote call raises, the resolver returns
    the matcher's reply for the query; [use_gemini] still holds afterwards,
    and the next call sends its query to the remote conversation again. *)
Theorem remote_raise_falls_back_and_stays_online
    (chat : Type) (send_message : chat -> str -> result response * chat)
    (unicode_lower : str -> N -> str -> str) (w : world chat) (q : str)
    (e : exn) (c : chat) :
  use_gemini w = true ->
  send_message (chat_session w) q = (Raise e, c) ->
  let w' := snd (get_gemini_response send_message unicode_lower q w) in
  fst (get_gemini_response send_message unicode_lower q w) =
    Ok (offline_reply unicode_lower q) /\
  use_gemini w' = true /\
  forall q' : str,
    exists later,
      trace (snd (get_gemini_response send_message unicode_lower q' w')) =
      trace w' ++ Sent q' :: later.
Proof.
  intros Hon Hsend w'.
  assert (Hmode : use_gemini w' = true).
  { unfold w'.
    rewrite (proj1 (resolve_frame chat send_message unicode_lower w q)).
    exact Hon. }
  split; [|split; [exact Hmode|]].
  - rewrite resolve_online, remote_exchange_cases by exact Hon.
    rewrite Hsend. reflexivity.
  - intros q'. apply resolve_online_sends. exact Hmode.
Qed.

Lemma remote_raise_falls_back_and_stays_online_witness :
  fst (get_gemini_response unreachable_remote keep_non_ascii
         (py "A riddle?") (new_session true)) = Ok riddle_string /\
  use_gemini (snd (get_gemini_response unreachable_remote keep_non_ascii
                     (py "A riddle?") (new_session true))) = true.
Proof.
  pose proof (remote_raise_falls_back_and_stays_online nat unreachable_remote
                keep_non_ascii (new_session true) (py "A riddle?")
                (Error (py "503 Service Unavailable")) 1%nat
                eq_refl eq_refl) as H.
  split; [exact (proj1 H) | exact (proj1 (proj2 H))].
Defined.

(** C2. For every string query, in every session and whatever the remote
    conversation does, the resolver returns a string: no exception leaves
    it. *)
Theorem resolve_never_raises
    (chat : Type) (send_message : chat -> str -> result response * chat)
    (unicode_lower : str -> N -> str -> str) (w : world chat) (q : str) :
  (exists reply : str,
     fst (get_gemini_response send_message unicode_lower q w) = Ok reply) /\
  (forall e : exn,
     fst (get_gemini_response send_message unicode_lower q w) <> Raise e).
Proof.
  destruct (resolve_returns chat send_message unicode_lower w q)
    as [reply Hreply].
  split; [now exists reply|].
  intros e. rewrite Hreply. discriminate.
Qed.

(** C4, as the code has it.  In online mode the resolver catches whatever
    the remote exchange raises -- [send_message] raising, [str(response)]
    raising, or the read of [response.text] raising anything but
    [AttributeError] -- shows an error notice and returns the matcher's
    reply.  A response without a [text] attribute is not a failure: the
    resolver returns [str(response)] and shows no notice.  A response with a
    text is returned as it is. *)
Theorem remote_exceptions_degrade_to_offline
    (chat : Type) (send_message : chat -> str -> result response * chat)
    (unicode_lower : str -> N -> str -> str) (w : world chat) (q : str)
    (r : result response) (c : chat) :
  use_gemini w = true ->
  send_message (chat_session w) q = (r, c) ->
  let w1 := set_chat_session c (add_event (Sent q) w) in
  let degraded e :=
    (Ok (offline_reply unicode_lower q),
     add_event (StError (error_notice e)) w1) in
  get_gemini_response send_message unicode_lower q w =
  match r with
  | Raise e => degraded e
  | Ok resp =>
      match str_of resp, text_attr resp with
      | Raise e, _ => degraded e
      | Ok _, Raise (Error msg) => degraded (Error msg)
      | Ok default, Raise (AttributeError _) => (Ok default, w1)
      | Ok _, Ok reply => (Ok reply, w1)
      end
  end.
Proof.
  intros Hon Hsend w1 degraded.
  rewrite resolve_online, remote_exchange_cases by exact Hon.
  rewrite Hsend. subst w1 degraded.
  destruct r as [resp | e]; [|reflexivity].
  destruct (str_of resp) as [d | e]; [|reflexivity].
  destruct (text_attr resp) as [reply | [msg | msg]]; reflexivity.
Qed.

Lemma remote_exceptions_degrade_to_offline_witness :
  use_gemini (new_session true) = true /\
  get_gemini_response unreachable_remote keep_non_ascii (py "Hello")
    (new_session true) =
  (Ok generic_string,
   {| use_gemini := true;
      chat_session := 1%nat;
      chat_history := [];
      trace :=
        [Sent (py "Hello");
         StError (error_notice (Error (py "503 Service Unavailable")))] |}).
Proof.
  split; [reflexivity|].
  exact (remote_exceptions_degrade_to_offline nat unreachable_remote
           keep_non_ascii (new_session true) (py "Hello")
           (Raise (Error (py "503 Service Unavailable"))) 1%nat
           eq_refl eq_refl).
Defined.

(** C4 as stated fails on a response that carries no [text] attribute: the
    call is well formed, the resolver returns [str(response)], which is not
    the matcher's reply, and no notice is shown. *)
Lemma textless_response_is_returned_as_a_string :
  use_gemini (new_session true) = true /\
  get_gemini_response textless_remote keep_non_ascii (py "Hello")
    (new_session true) =
  (Ok (py "<response>"),
   {| use_gemini := true;
      chat_session := 1%nat;
      chat_history := [];
      trace := [Sent (py "Hello")] |}) /\
  offline_reply keep_non_ascii (py "Hello") = generic_string /\
  py "<response>" <> generic_string.
Proof.
  split; [reflexivity|]. split; [reflexivity|]. split; [reflexivity|].
  apply str_eqb_false. vm_compute. reflexivity.
Qed.

(** ** The conversation history *)

Lemma other_role_involutive (r : role_t) : other_role (other_role r) = r.
Proof. now destruct r. Qed.

Lemma alternates_from_app (h t : list message) (r : role_t) :
  alternates_from r (h ++ t) =
  alternates_from r h &&
  alternates_from (if Nat.even (List.length h) then r else other_role r) t.
Proof.
  revert r. induction h as [|m h IH]; intros r.
  - reflexivity.
  - cbn [app alternates_from List.length].
    rewrite IH, Nat.even_succ, <- Nat.negb_even, other_role_involutive.
    rewrite <- andb_assoc. now destruct (Nat.even (List.length h)).
Qed.

(** A user entry followed by an assistant entry keeps a history
    alternating. *)
Lemma alternating_add_pair (h : list message) (question answer : str) :
  alternating h = true ->
  alternating (h ++ [ {| role := user; text := question |};
                      {| role := assistant; text := answer |} ]) = true.
Proof.
  unfold alternating. intros H. apply andb_prop in H. destruct H as [Ha He].
  rewrite alternates_from_app, Ha, He, length_app, Nat.even_add, He.
  reflexivity.
Qed.

(** Without a submitted text the block leaves the session as it was. *)
Lemma chat_input_block_idle
    (chat : Type) (send_message : chat -> str -> result response * chat)
    (unicode_lower : str -> N -> str -> str) (w : world chat)
    (user_input : option str) :
  truthy user_input = false ->
  chat_input_block send_message unicode_lower user_input w = (Ok tt, w).
Proof.
  destruct user_input as [[|c s]|]; simpl; intros H;
    [reflexivity | discriminate | reflexivity].
Qed.

Lemma joke_scenario_reply :
  fst (get_gemini_response echo_remote keep_non_ascii (py "Tell me a joke")
         (add_message {| role := user; text := py "Tell me a joke" |}
            (new_session false))) =
  Ok joke_string.
Proof. reflexivity. Qed.

(** C9. The history only grows, by a user entry and then an assistant entry
    for each submitted text: the block returns, the entries that were there
    stay in place, exactly two are added, the user's text and then the
    resolver's reply; an alternating history stays alternating, and from the
    empty history one input gives two entries. *)
Theorem chat_input_appends_user_then_assistant
    (chat : Type) (send_message : chat -> str -> result response * chat)
    (unicode_lower : str -> N -> str -> str) (w : world chat)
    (user_input : option str) :
  truthy user_input = true ->
  exists (input reply : str) (w' : world chat),
    user_input = Some input /\
    chat_input_block send_message unicode_lower user_input w = (Ok tt, w') /\
    fst (get_gemini_response send_message unicode_lower input
           (add_message {| role := user; text := input |} w)) = Ok reply /\
    chat_history w' =
      chat_history w ++ [ {| role := user; text := input |};
                          {| role := assistant; text := reply |} ] /\
    (alternating (chat_history w) = true ->
     alternating (chat_history w') = true) /\
    (chat_history w = [] ->
     map role (chat_history w') = [user; assistant]).
Proof.
  destruct user_input as [[|c s]|]; simpl; try discriminate. intros _.
  set (input := c :: s).
  set (w0 := add_message {| role := user; text := input |} w).
  destruct (resolve_returns chat send_message unicode_lower w0 input)
    as [reply Hreply].
  pose proof (resolve_frame chat send_message unicode_lower w0 input)
    as [_ Hhist].
  destruct (get_gemini_response send_message unicode_lower input w0)
    as [res w1] eqn:Hres.
  simpl in Hreply, Hhist. subst res.
  exists input, reply, (add_message {| role := assistant; text := reply |} w1).
  assert (Hnew : chat_history
                   (add_message {| role := assistant; text := reply |} w1) =
                 chat_history w ++ [ {| role := user; text := input |};
                                     {| role := assistant; text := reply |} ]).
  { simpl. rewrite Hhist. unfold w0. simpl. now rewrite <- app_assoc. }
  split; [reflexivity|]. split.
  - unfold bind, history_append. fold input. fold w0. now rewrite Hres.
  - split; [fold w0; now rewrite Hres|]. split; [exact Hnew|]. split.
    + intros Halt. rewrite Hnew. now apply alternating_add_pair.
    + intros Hempty. rewrite Hnew, Hempty. reflexivity.
Qed.

Lemma chat_input_appends_user_then_assistant_witness :
  truthy (Some (py "Tell me a joke")) = true /\
  chat_history
    (snd (chat_input_block echo_remote keep_non_ascii
            (Some (py "Tell me a joke")) (new_session false))) =
  [ {| role := user; text := py "Tell me a joke" |};
    {| role := assistant; text := joke_string |} ].
Proof.
  split; [reflexivity|].
  destruct (chat_input_appends_user_then_assistant nat echo_remote
              keep_non_ascii (new_session false) (Some (py "Tell me a joke"))
              eq_refl)
    as (input & reply & w' & Hin & Hrun & Hreply & Hhist & _).
  injection Hin as <-.
  rewrite Hrun. simpl snd. rewrite Hhist.
  rewrite joke_scenario_reply in Hreply.
  injection Hreply as <-. reflexivity.
Defined.

(** ** The carbon score *)

(** [min(max(x, 0), 100)] is [clamp(x, 0, 100)], for every integer. *)
Lemma min_max_is_clamp (x : Z) :
  Z.min (Z.max x 0) 100 = clamp x 0 100.
Proof.
  unfold clamp.
  destruct (Z.ltb_spec x 0); [lia|].
  destruct (Z.ltb_spec 100 x); lia.
Qed.

Lemma len_repeat (m : message) (n : nat) : len (repeat m n) = Z.of_nat n.
Proof. unfold len. now rewrite repeat_length. Qed.

(** C8. The score of a history is [clamp(12 + history_length, 0, 100)], where
    [history_length] is the number of its entries; it is 12 for 0 entries and
    100 for 88 and for 200 entries, and it always lies between 0 and 100.
    The formula agrees with the clamp at every integer. *)
Theorem carbon_score_is_clamped (history : list message) :
  compute_carbon_score history = clamp (12 + len history) 0 100 /\
  (0 <= compute_carbon_score history <= 100)%Z /\
  (len history = 0%Z -> compute_carbon_score history = 12%Z) /\
  (len history = 88%Z -> compute_carbon_score history = 100%Z) /\
  (len history = 200%Z -> compute_carbon_score history = 100%Z) /\
  (forall n : Z, Z.min (Z.max (12 + n * 1) 0) 100 = clamp (12 + n) 0 100).
Proof.
  assert (H : compute_carbon_score history =
              Z.min (Z.max (12 + len history) 0) 100).
  { unfold compute_carbon_score. now rewrite Z.mul_1_r. }
  rewrite H.
  split; [apply min_max_is_clamp|].
  split; [lia|].
  split; [intros ->; reflexivity|].
  split; [intros ->; reflexivity|].
  split; [intros ->; reflexivity|].
  intros n. rewrite Z.mul_1_r. apply min_max_is_clamp.
Qed.

Lemma carbon_score_is_clamped_witness :
  compute_carbon_score [] = 12%Z /\
  compute_carbon_score
    (repeat {| role := user; text := py "hi" |} 88) = 100%Z /\
  compute_carbon_score
    (repeat {| role := user; text := py "hi" |} 200) = 100%Z.
Proof.
  split; [|split].
  - exact (proj1 (proj2 (proj2 (carbon_score_is_clamped []))) eq_refl).
  - exact (proj1 (proj2 (proj2 (proj2 (carbon_score_is_clamped _))))
             (len_repeat _ 88)).
  - exact (proj1 (proj2 (proj2 (proj2 (proj2 (carbon_score_is_clamped _)))))
             (len_repeat _ 200)).
Defined.

(** * Beyond the resolver: the mode selector, the sidebar, the run *)

(** ** The mode selector *)

Section ModeSelectorFacts.

Variables model chat : Type.

(** The [try] body never touches the history, keeps a conversation that is
    there, and leaves one behind when it returns. *)
Lemma init_remote_ok (lib : client model chat) (key : str)
    (ss ss' : session_state chat) :
  init_remote lib key ss = Ok ss' ->
  ss_chat_history ss' = ss_chat_history ss /\
  (exists c, ss_chat_session ss' = Some c) /\
  (forall c, ss_chat_session ss = Some c -> ss' = ss).
Proof.
  unfold init_remote, and_then.
  destruct (configure lib key) as [[]|e]; [|discriminate].
  destruct (GenerativeModel lib (py "gemini-2.5-flash")) as [m|e];
    [|discriminate].
  destruct (ss_chat_session ss) as [c|] eqn:Hc.
  - intros [= <-]. rewrite Hc. repeat split; eauto.
  - destruct (start_chat lib m) as [c|e]; [|discriminate].
    intros [= <-]. simpl. repeat split; eauto. discriminate.
Qed.

Lemma mode_selector_offline_without_key (lib : client model chat)
    (api_key : option str) (ss : session_state chat) :
  truthy api_key = false ->
  mode_selector lib api_key ss = (false, ss, [StInfo offline_info]).
Proof.
  unfold mode_selector. destruct api_key as [key|]; [|reflexivity].
  now intros ->.
Qed.

Lemma mode_selector_with_key (lib : client model chat) (key : str)
    (ss : session_state chat) :
  truthy (Some key) = true ->
  mode_selector lib (Some key) ss =
  match init_remote lib key ss with
  | Ok ss' => (true, ss', [])
  | Raise e => (false, ss, [StWarning (init_warning e)])
  end.
Proof. unfold mode_selector. now intros ->. Qed.

(** The selector never changes the history key. *)
Lemma mode_selector_history (lib : client model chat)
    (api_key : option str) (ss : session_state chat) :
  ss_chat_history (snd (fst (mode_selector lib api_key ss))) =
  ss_chat_history ss.
Proof.
  destruct (truthy api_key) eqn:Hk.
  - destruct api_key as [key|]; [|discriminate].
    rewrite mode_selector_with_key by exact Hk.
    destruct (init_remote lib key ss) as [ss'|e] eqn:E; [|reflexivity].
    exact (proj1 (init_remote_ok lib key ss ss' E)).
  - now rewrite mode_selector_offline_without_key.
Qed.

(** Online mode comes with a conversation in the session. *)
Lemma mode_selector_online (lib : client model chat)
    (api_key : option str) (ss : session_state chat) :
  fst (fst (mode_selector lib api_key ss)) = true ->
  truthy api_key = true /\
  snd (mode_selector lib api_key ss) = [] /\
  exists c, ss_chat_session (snd (fst (mode_selector lib api_key ss))) = Some c.
Proof.
  destruct (truthy api_key) eqn:Hk.
  - destruct api_key as [key|]; [|discriminate].
    rewrite mode_selector_with_key by exact Hk.
    destruct (init_remote lib key ss) as [ss'|e] eqn:E; simpl;
      [|discriminate].
    intros _. repeat split.
    exact (proj1 (proj2 (init_remote_ok lib key ss ss' E))).
  - rewrite mode_selector_offline_without_key by exact Hk. discriminate.
Qed.

(** Offline mode leaves the session as it was. *)
Lemma mode_selector_offline (lib : client model chat)
    (api_key : option str) (ss : session_state chat) :
  fst (fst (mode_selector lib api_key ss)) = false ->
  snd (fst (mode_selector lib api_key ss)) = ss.
Proof.
  destruct (truthy api_key) eqn:Hk.
  - destruct api_key as [key|]; [|discriminate].
    rewrite mode_selector_with_key by exact Hk.
    destruct (init_remote lib key ss) as [ss'|e]; simpl;
      [discriminate | reflexivity].
  - now rewrite mode_selector_offline_without_key.
Qed.

End ModeSelectorFacts.

(** X1. When the mode selector switches [use_gemini] on, a credential was
    present, nothing was shown to the user, the session holds a remote
    conversation, and the history key is as it was. *)
Theorem online_mode_comes_with_a_conversation
    (model chat : Type) (lib : client model chat) (api_key : option str)
    (ss : session_state chat) :
  fst (fst (mode_selector lib api_key ss)) = true ->
  truthy api_key = true /\
  snd (mode_selector lib api_key ss) = [] /\
  (exists c,
     ss_chat_session (snd (fst (mode_selector lib api_key ss))) = Some c) /\
  ss_chat_history (snd (fst (mode_selector lib api_key ss))) =
    ss_chat_history ss.
Proof.
  intros Hon.
  destruct (mode_selector_online model chat lib api_key ss Hon)
    as (Hkey & Hquiet & Hconv).
  repeat split; try assumption.
  apply mode_selector_history.
Qed.

Lemma online_mode_comes_with_a_conversation_witness :
  fst (fst (mode_selector working_client (Some (py "k3y"))
              (fresh nat))) = true /\
  ss_chat_session
    (snd (fst (mode_selector working_client (Some (py "k3y"))
                 (fresh nat)))) = Some 0%nat.
Proof.
  split; [reflexivity|].
  destruct (online_mode_comes_with_a_conversation unit nat working_client
              (Some (py "k3y")) (fresh nat) eq_refl)
    as (_ & _ & [c Hc] & _).
  rewrite Hc. simpl in Hc. symmetry. exact Hc.
Defined.

(** X2. When the mode selector leaves [use_gemini] off, the session is
    untouched and the user gets exactly one notice: the information notice
    when the credential is missing or empty, and otherwise a warning that
    quotes the exception the initialisation raised. *)
Theorem offline_mode_is_explained_once
    (model chat : Type) (lib : client model chat) (api_key : option str)
    (ss : session_state chat) :
  fst (fst (mode_selector lib api_key ss)) = false ->
  snd (fst (mode_selector lib api_key ss)) = ss /\
  (truthy api_key = false /\
   snd (mode_selector lib api_key ss) = [StInfo offline_info] \/
   exists key e,
     api_key = Some key /\ truthy api_key = true /\
     init_remote lib key ss = Raise e /\
     snd (mode_selector lib api_key ss) = [StWarning (init_warning e)]).
Proof.
  intros Hoff. split; [now apply mode_selector_offline|].
  destruct (truthy api_key) eqn:Hk.
  - right. destruct api_key as [key|]; [|discriminate].
    rewrite mode_selector_with_key in Hoff |- * by exact Hk.
    destruct (init_remote lib key ss) as [ss'|e] eqn:E; [discriminate|].
    exists key, e. repeat split; assumption.
  - left. split; [reflexivity|].
    now rewrite mode_selector_offline_without_key.
Qed.

Lemma offline_mode_is_explained_once_witness :
  fst (fst (mode_selector rejecting_client (Some (py "k3y"))
              (fresh nat))) = false /\
  snd (mode_selector rejecting_client (Some (py "k3y")) (fresh nat)) =
  [StWarning (init_warning (Error (py "API key not valid")))].
Proof.
  split; [reflexivity|].
  destruct (offline_mode_is_explained_once unit nat rejecting_client
              (Some (py "k3y")) (fresh nat) eq_refl)
    as (_ & [[Hk _] | (key & e & Hkey & _ & Hraise & Hnotice)]).
  - discriminate Hk.
  - reflexivity.
Defined.

(** X3. A conversation that is in the session is never replaced: whatever
    the credential and whatever the library does, the mode selector leaves
    such a session exactly as it was, and [start_chat] plays no part in the
    result. *)
Theorem existing_conversation_is_kept
    (model chat : Type) (lib lib' : client model chat)
    (api_key : option str) (ss : session_state chat) (c : chat) :
  ss_chat_session ss = Some c ->
  snd (fst (mode_selector lib api_key ss)) = ss /\
  (configure lib' = configure lib ->
   GenerativeModel lib' = GenerativeModel lib ->
   mode_selector lib' api_key ss = mode_selector lib api_key ss).
Proof.
  intros Hc. split.
  - destruct (fst (fst (mode_selector lib api_key ss))) eqn:Hmode.
    + destruct (mode_selector_online model chat lib api_key ss Hmode)
        as (Hk & _ & _).
      destruct api_key as [key|]; [|discriminate].
      rewrite mode_selector_with_key in Hmode |- * by exact Hk.
      destruct (init_remote lib key ss) as [ss'|e] eqn:E; [|reflexivity].
      exact (proj2 (proj2 (init_remote_ok model chat lib key ss ss' E)) c Hc).
    + now apply mode_selector_offline.
  - intros Hconf Hmodel. unfold mode_selector, init_remote.
    now rewrite Hconf, Hmodel, Hc.
Qed.

Lemma existing_conversation_is_kept_witness :
  snd (fst (mode_selector working_client (Some (py "k3y"))
              {| ss_chat_session := Some 7%nat;
                 ss_chat_history := Some [] |})) =
  {| ss_chat_session := Some 7%nat; ss_chat_history := Some [] |}.
Proof.
  exact (proj1 (existing_conversation_is_kept unit nat working_client
                  working_client (Some (py "k3y"))
                  {| ss_chat_session := Some 7%nat;
                     ss_chat_history := Some [] |} 7%nat eq_refl)).
Defined.

(** X4. The mode selector is idempotent: run again on the session it left,
    with the same credential and the same library behaviour, it gives the
    same mode, the same session and the same notices. *)
Theorem mode_selector_idempotent
    (model chat : Type) (lib : client model chat) (api_key : option str)
    (ss : session_state chat) :
  mode_selector lib api_key (snd (fst (mode_selector lib api_key ss))) =
  mode_selector lib api_key ss.
Proof.
  destruct (fst (fst (mode_selector lib api_key ss))) eqn:Hmode.
  - destruct (mode_selector_online model chat lib api_key ss Hmode)
      as (Hk & _ & _).
    destruct api_key as [key|]; [|discriminate].
    rewrite !mode_selector_with_key by exact Hk.
    rewrite mode_selector_with_key in Hmode by exact Hk.
    destruct (init_remote lib key ss) as [ss'|e] eqn:E; [|discriminate].
    simpl.
    destruct (init_remote_ok model chat lib key ss ss' E)
      as (_ & [c Hc] & _).
    revert E. unfold init_remote, and_then.
    destruct (configure lib key) as [[]|e]; [|discriminate].
    destruct (GenerativeModel lib (py "gemini-2.5-flash")) as [m|e];
      [|discriminate].
    intros _. now rewrite Hc.
  - now rewrite (mode_selector_offline model chat lib api_key ss Hmode).
Qed.

(** X5. With a credential, the first call of the initialisation that raises
    decides: the warning quotes its exception, the later calls are not
    made, and no conversation is stored.  [start_chat] counts only when the
    session has no conversation yet. *)
Theorem first_initialisation_error_is_reported
    (model chat : Type) (lib : client model chat) (key : str)
    (ss : session_state chat) (e : exn) :
  truthy (Some key) = true ->
  (configure lib key = Raise e ->
   mode_selector lib (Some key) ss =
   (false, ss, [StWarning (init_warning e)])) /\
  (configure lib key = Ok tt ->
   GenerativeModel lib (py "gemini-2.5-flash") = Raise e ->
   mode_selector lib (Some key) ss =
   (false, ss, [StWarning (init_warning e)])) /\
  (forall m,
     configure lib key = Ok tt ->
     GenerativeModel lib (py "gemini-2.5-flash") = Ok m ->
     ss_chat_session ss = None ->
     start_chat lib m = Raise e ->
     mode_selector lib (Some key) ss =
     (false, ss, [StWarning (init_warning e)])).
Proof.
  intros Hk. rewrite mode_selector_with_key by exact Hk.
  unfold init_remote, and_then. split; [|split].
  - now intros ->.
  - now intros -> ->.
  - now intros m -> -> -> ->.
Qed.

Lemma first_initialisation_error_is_reported_witness :
  truthy (Some (py "k3y")) = true /\
  mode_selector rejecting_client (Some (py "k3y")) (fresh nat) =
  (false, fresh nat,
   [StWarning (init_warning (Error (py "API key not valid")))]).
Proof.
  split; [reflexivity|].
  exact (proj1 (first_initialisation_error_is_reported unit nat
                  rejecting_client (py "k3y") (fresh nat)
                  (Error (py "API key not valid")) eq_refl) eq_refl).
Defined.

(** ** The score, once more *)

(** X6. The score is [min(12 + n, 100)] for a history of [n] entries: it
    starts at 12, so the lower clamp at 0 never acts; it is 100 exactly from
    88 entries on; and a longer history never has a smaller score. *)
Theorem carbon_score_saturates (h1 h2 : list message) :
  compute_carbon_score h1 = Z.min (12 + len h1) 100 /\
  (12 <= compute_carbon_score h1)%Z /\
  (compute_carbon_score h1 = 100%Z <-> (88 <= len h1)%Z) /\
  ((len h1 <= len h2)%Z ->
   (compute_carbon_score h1 <= compute_carbon_score h2)%Z).
Proof.
  assert (Hpos : forall h : list message, (0 <= len h)%Z)
    by (intros h; unfold len; lia).
  assert (Hscore : forall h : list message,
             compute_carbon_score h = Z.min (12 + len h) 100).
  { intros h. unfold compute_carbon_score. specialize (Hpos h). lia. }
  rewrite !Hscore. specialize (Hpos h1). repeat split; lia.
Qed.

(** ** The resolver, once more *)

(** X7. In online mode the resolver makes exactly one remote call, with the
    query as it was given, and the conversation is left where that call put
    it.  When the exchange returns, its value is the reply and nothing else
    is recorded; when it raises, the reply is the matcher's and one error
    notice follows the call, quoting the exception.  There is no retry. *)
Theorem resolver_sends_once_and_reports_failure
    (chat : Type) (send_message : chat -> str -> result response * chat)
    (unicode_lower : str -> N -> str -> str) (w : world chat) (q : str) :
  use_gemini w = true ->
  chat_session (snd (get_gemini_response send_message unicode_lower q w)) =
    snd (send_message (chat_session w) q) /\
  ((exists reply,
      fst (remote_exchange send_message q w) = Ok reply /\
      fst (get_gemini_response send_message unicode_lower q w) = Ok reply /\
      trace (snd (get_gemini_response send_message unicode_lower q w)) =
        trace w ++ [Sent q]) \/
   (exists e,
      fst (remote_exchange send_message q w) = Raise e /\
      fst (get_gemini_response send_message unicode_lower q w) =
        Ok (offline_reply unicode_lower q) /\
      trace (snd (get_gemini_response send_message unicode_lower q w)) =
        trace w ++ [Sent q; StError (error_notice e)])).
Proof.
  intros Hon. rewrite resolve_online by exact Hon.
  rewrite remote_exchange_cases.
  destruct (send_message (chat_session w) q) as [r c]. simpl snd at 2.
  set (outcome :=
         match r with
         | Ok resp =>
             match str_of resp with
             | Ok default => getattr_default (text_attr resp) default
             | Raise e => Raise e
             end
         | Raise e => Raise e
         end).
  destruct outcome as [reply | e]; simpl.
  - split; [reflexivity|]. left. exists reply. repeat split.
  - split; [reflexivity|]. right. exists e. repeat split.
    now rewrite <- app_assoc.
Qed.

Lemma resolver_sends_once_and_reports_failure_witness :
  use_gemini (new_session true) = true /\
  trace (snd (get_gemini_response unreachable_remote keep_non_ascii
                (py "Hi") (new_session true))) =
  [Sent (py "Hi");
   StError (error_notice (Error (py "503 Service Unavailable")))].
Proof.
  split; [reflexivity|].
  destruct (resolver_sends_once_and_reports_failure nat unreachable_remote
              keep_non_ascii (new_session true) (py "Hi") eq_refl)
    as (_ & [(reply & Hx & _) | (e & Hx & _ & Htrace)]).
  - discriminate Hx.
  - injection Hx as <-. exact Htrace.
Defined.

(** ** One run of the script *)

Section RunFacts.

Variables model chat : Type.
Variable unicode_lower : str -> N -> str -> str.

(** What the chat-input block does with a submitted text. *)
Lemma chat_input_block_run
    (conv : Type) (send : conv -> str -> result response * conv)
    (w : world conv) (q : str) :
  truthy (Some q) = true ->
  exists reply w1,
    get_gemini_response send unicode_lower q
      (add_message {| role := user; text := q |} w) = (Ok reply, w1) /\
    chat_input_block send unicode_lower (Some q) w =
      (Ok tt, add_message {| role := assistant; text := reply |} w1) /\
    chat_history w1 = chat_history w ++ [ {| role := user; text := q |} ].
Proof.
  intros Hq.
  set (w0 := add_message {| role := user; text := q |} w).
  destruct (resolve_returns conv send unicode_lower w0 q) as [reply Hreply].
  pose proof (proj2 (resolve_frame conv send unicode_lower w0 q)) as Hhist.
  destruct (get_gemini_response send unicode_lower q w0) as [res w1] eqn:Hres.
  simpl in Hreply, Hhist. subst res.
  exists reply, w1. split; [reflexivity|]. split; [|exact Hhist].
  unfold chat_input_block. rewrite Hq.
  unfold bind, history_append. fold w0. now rewrite Hres.
Qed.

Lemma script_run_unfold (lib : client model chat)
    (api_key user_input : option str) (ss : session_state chat) :
  script_run unicode_lower lib api_key user_input ss =
  let bw := chat_input_block (session_send lib) unicode_lower user_input
              (run_world lib api_key ss) in
  {| outcome := fst bw;
     state_after := {| ss_chat_session := chat_session (snd bw);
                       ss_chat_history := Some (chat_history (snd bw)) |};
     calls := trace (snd bw);
     page := snd (mode_selector lib api_key ss)
             ++ sidebar (initial_history ss)
             ++ match fst bw with
                | Ok _ => display (chat_history (snd bw))
                | Raise _ => []
                end |}.
Proof.
  unfold script_run, run_world.
  pose proof (mode_selector_history model chat lib api_key ss) as Hh.
  destruct (mode_selector lib api_key ss) as [[online ss1] notices].
  simpl in Hh |- *. unfold initial_history at 1 2 3. rewrite Hh.
  fold (initial_history ss).
  destruct (chat_input_block (session_send lib) unicode_lower user_input _).
  reflexivity.
Qed.

End RunFacts.

Section RunCases.

Variables model chat : Type.
Variable unicode_lower : str -> N -> str -> str.
Variable lib : client model chat.

(** The block returns, and either there was nothing to handle or a user
    entry and an assistant entry were added. *)
Lemma chat_input_block_outcome
    (conv : Type) (send : conv -> str -> result response * conv)
    (w : world conv) (user_input : option str) :
  exists w',
    chat_input_block send unicode_lower user_input w = (Ok tt, w') /\
    (truthy user_input = false /\ w' = w \/
     exists q reply w1,
       user_input = Some q /\ truthy user_input = true /\
       get_gemini_response send unicode_lower q
         (add_message {| role := user; text := q |} w) = (Ok reply, w1) /\
       w' = add_message {| role := assistant; text := reply |} w1 /\
       chat_history w' =
         chat_history w ++ [ {| role := user; text := q |};
                             {| role := assistant; text := reply |} ]).
Proof.
  destruct (truthy user_input) eqn:Hq.
  - destruct user_input as [q|]; [|discriminate].
    destruct (chat_input_block_run unicode_lower conv send w q Hq)
      as (reply & w1 & Hres & Hrun & Hhist).
    eexists. split; [exact Hrun|]. right.
    exists q, reply, w1. repeat split; try assumption.
    simpl. rewrite Hhist, <- app_assoc. reflexivity.
  - exists w. split; [now apply chat_input_block_idle | now left].
Qed.


End RunCases.

(** X8. A run of the script always completes: neither a failed
    initialisation nor a failed remote call stops it.  Afterwards the
    history key is set, and the stored history is the one found at the
    start with new entries, if any, at its end. *)
Theorem script_run_always_completes
    (model chat : Type) (unicode_lower : str -> N -> str -> str)
    (lib : client model chat) (api_key user_input : option str)
    (ss : session_state chat) :
  outcome (script_run unicode_lower lib api_key user_input ss) = Ok tt /\
  exists added,
    ss_chat_history
      (state_after (script_run unicode_lower lib api_key user_input ss)) =
    Some (initial_history ss ++ added).
Proof.
  rewrite script_run_unfold.
  destruct (chat_input_block_outcome unicode_lower (option chat)
              (session_send lib) (run_world lib api_key ss) user_input)
    as (w' & Hrun & Hcases).
  rewrite Hrun. simpl. split; [reflexivity|].
  destruct Hcases as [[_ ->] | (q & reply & w1 & _ & _ & _ & _ & Hhist)].
  - exists []. simpl. now rewrite app_nil_r.
  - eexists. rewrite Hhist. reflexivity.
Qed.

(** X9. A run without a submitted text (nothing, or the empty string) makes
    no remote call and shows no error; the session keeps the conversation
    the mode selector left and the history it had; the page shows the
    notices, the score of that history and its transcript. *)
Theorem script_run_without_input
    (model chat : Type) (unicode_lower : str -> N -> str -> str)
    (lib : client model chat) (api_key user_input : option str)
    (ss : session_state chat) :
  truthy user_input = false ->
  script_run unicode_lower lib api_key user_input ss =
  {| outcome := Ok tt;
     state_after :=
       {| ss_chat_session :=
            ss_chat_session (snd (fst (mode_selector lib api_key ss)));
          ss_chat_history := Some (initial_history ss) |};
     calls := [];
     page := snd (mode_selector lib api_key ss)
             ++ sidebar (initial_history ss)
             ++ display (initial_history ss) |}.
Proof.
  intros Hq. rewrite script_run_unfold.
  rewrite chat_input_block_idle by exact Hq. reflexivity.
Qed.

Lemma script_run_without_input_witness :
  truthy (Some []) = false /\
  script_run keep_non_ascii working_client None (Some []) (fresh nat) =
  {| outcome := Ok tt;
     state_after := {| ss_chat_session := None;
                       ss_chat_history := Some [] |};
     calls := [];
     page := [StInfo offline_info;
              StMetric metric_label (py "12");
              StProgress 12 100] |}.
Proof.
  split; [reflexivity|].
  exact (script_run_without_input unit nat keep_non_ascii working_client
           None (Some []) (fresh nat) eq_refl).
Defined.

(** X10. The sidebar is one interaction behind the transcript.  In a run
    that handles a submitted text, the metric and the progress bar show the
    score of the history found at the start, while the transcript below
    already ends with the new user entry and the new assistant entry, which
    are also what the session keeps. *)
Theorem sidebar_is_drawn_before_the_input_is_handled
    (model chat : Type) (unicode_lower : str -> N -> str -> str)
    (lib : client model chat) (api_key user_input : option str)
    (ss : session_state chat) :
  truthy user_input = true ->
  exists q reply,
    user_input = Some q /\
    ss_chat_history
      (state_after (script_run unicode_lower lib api_key user_input ss)) =
    Some (initial_history ss ++ [ {| role := user; text := q |};
                                  {| role := assistant; text := reply |} ]) /\
    page (script_run unicode_lower lib api_key user_input ss) =
    snd (mode_selector lib api_key ss)
      ++ [StMetric metric_label
            (decimal (compute_carbon_score (initial_history ss)));
          StProgress (compute_carbon_score (initial_history ss)) 100]
      ++ display (initial_history ss)
      ++ [StChatMessage user (avatar_of user) q;
          StChatMessage assistant (avatar_of assistant) reply].
Proof.
  intros Hq. rewrite script_run_unfold.
  destruct (chat_input_block_outcome unicode_lower (option chat)
              (session_send lib) (run_world lib api_key ss) user_input)
    as (w' & Hrun & Hcases).
  rewrite Hrun. simpl.
  destruct Hcases as [[Hno _] | (q & reply & w1 & Hin & _ & _ & _ & Hhist)].
  - rewrite Hq in Hno. discriminate.
  - exists q, reply. split; [exact Hin|].
    rewrite Hhist. simpl chat_history. split; [reflexivity|].
    unfold display. rewrite map_app. reflexivity.
Qed.

Lemma sidebar_is_drawn_before_the_input_is_handled_witness :
  truthy (Some (py "Tell me a joke")) = true /\
  page (script_run keep_non_ascii working_client None
          (Some (py "Tell me a joke")) (fresh nat)) =
  [StInfo offline_info;
   StMetric metric_label (py "12");
   StProgress 12 100;
   StChatMessage user (avatar_of user) (py "Tell me a joke");
   StChatMessage assistant (avatar_of assistant) joke_string].
Proof.
  split; [reflexivity|].
  destruct (sidebar_is_drawn_before_the_input_is_handled unit nat
              keep_non_ascii working_client None
              (Some (py "Tell me a joke")) (fresh nat) eq_refl)
    as (q & reply & Hin & Hhist & Hpage).
  rewrite Hpage. injection Hin as <-.
  vm_compute in Hhist. injection Hhist as <-. reflexivity.
Defined.

(** X11. When the mode selector has left the script offline (no credential,
    or a failed initialisation), a run that handles a submitted text makes
    no remote call and shows no error notice, leaves the conversation key
    of the session as it was, and stores the user's text followed by the
    matcher's reply. *)
Theorem offline_run_answers_from_the_matcher
    (model chat : Type) (unicode_lower : str -> N -> str -> str)
    (lib : client model chat) (api_key : option str) (q : str)
    (ss : session_state chat) :
  fst (fst (mode_selector lib api_key ss)) = false ->
  truthy (Some q) = true ->
  calls (script_run unicode_lower lib api_key (Some q) ss) = [] /\
  state_after (script_run unicode_lower lib api_key (Some q) ss) =
  {| ss_chat_session := ss_chat_session ss;
     ss_chat_history :=
       Some (initial_history ss
               ++ [ {| role := user; text := q |};
                    {| role := assistant;
                       text := offline_reply unicode_lower q |} ]) |}.
Proof.
  intros Hoff Hq. rewrite script_run_unfold. unfold run_world.
  rewrite (mode_selector_offline model chat lib api_key ss Hoff), Hoff.
  unfold chat_input_block. rewrite Hq.
  unfold bind at 1, history_append at 1. unfold bind.
  rewrite resolve_offline by reflexivity.
  unfold history_append. simpl.
  rewrite <- app_assoc. split; reflexivity.
Qed.

Lemma offline_run_answers_from_the_matcher_witness :
  calls (script_run keep_non_ascii rejecting_client (Some (py "k3y"))
           (Some (py "a Puzzle")) (fresh nat)) = [] /\
  state_after (script_run keep_non_ascii rejecting_client (Some (py "k3y"))
                 (Some (py "a Puzzle")) (fresh nat)) =
  {| ss_chat_session := None;
     ss_chat_history :=
       Some [ {| role := user; text := py "a Puzzle" |};
              {| role := assistant; text := riddle_string |} ] |}.
Proof.
  exact (offline_run_answers_from_the_matcher unit nat keep_non_ascii
           rejecting_client (Some (py "k3y")) (py "a Puzzle") (fresh nat)
           eq_refl eq_refl).
Defined.



(** ** A session of runs *)

Section SessionFacts.

Variables model chat : Type.
Variable unicode_lower : str -> N -> str -> str.

(** What one run does to the stored history. *)
Lemma run_history_step (lib : client model chat)
    (api_key user_input : option str) (ss : session_state chat) :
  truthy user_input = false /\
  initial_history
    (state_after (script_run unicode_lower lib api_key user_input ss)) =
  initial_history ss \/
  truthy user_input = true /\
  exists q reply,
    initial_history
      (state_after (script_run unicode_lower lib api_key user_input ss)) =
    initial_history ss ++ [ {| role := user; text := q |};
                            {| role := assistant; text := reply |} ].
Proof.
  rewrite script_run_unfold.
  destruct (chat_input_block_outcome unicode_lower (option chat)
              (session_send lib) (run_world lib api_key ss) user_input)
    as (w' & Hrun & Hcases).
  rewrite Hrun. unfold initial_history at 1 3. simpl.
  destruct Hcases as [[Hno ->] | (q & reply & w1 & _ & Hq & _ & _ & Hhist)].
  - left. now split.
  - right. split; [exact Hq|]. exists q, reply. exact Hhist.
Qed.

End SessionFacts.



(** X14. Every run with a submitted text adds two entries and every other
    run adds none, so after a sequence of runs the history has grown by
    twice the number of submitted texts; in a session started from nothing
    the score is then [min(12 + 2 * n, 100)] after [n] submitted texts. *)
Theorem session_history_counts_exchanges
    (model chat : Type) (unicode_lower : str -> N -> str -> str)
    (runs : list (interaction model chat)) (ss : session_state chat) :
  let n := List.length
             (filter (fun i => truthy (user_input_now i)) runs) in
  List.length (initial_history (session_runs unicode_lower runs ss)) =
    (List.length (initial_history ss) + 2 * n)%nat /\
  compute_carbon_score
    (initial_history (session_runs unicode_lower runs (fresh chat))) =
    Z.min (12 + 2 * Z.of_nat n) 100.
Proof.
  assert (Hlen : forall s : session_state chat,
             List.length
               (initial_history (session_runs unicode_lower runs s)) =
             (List.length (initial_history s)
              + 2 * List.length
                      (filter (fun i => truthy (user_input_now i)) runs))%nat).
  { induction runs as [|i rest IH]; intros s; simpl; [lia|].
    rewrite IH.
    destruct (run_history_step model chat unicode_lower (lib_now i)
                (api_key_now i) (user_input_now i) s)
      as [[Hq Hsame] | (Hq & q & reply & Hstep)]; rewrite Hq.
    - now rewrite Hsame.
    - rewrite Hstep, length_app. simpl. lia. }
  intros n. split; [apply Hlen|].
  unfold compute_carbon_score, len. rewrite Hlen. simpl List.length.
  fold n. lia.
Qed.

(** ** The page *)

(** X15. The transcript shows the history without loss: one chat message
    per entry, in the order of the history, under the entry's role, with an
    avatar that tells the user from the assistant; two histories with the
    same transcript are the same history. *)
Theorem transcript_shows_the_history (h1 h2 : list message) :
  List.length (display h1) = List.length h1 /\
  (forall (k : nat) (m : message),
     nth_error h1 k = Some m ->
     nth_error (display h1) k =
     Some (StChatMessage (role m) (avatar_of (role m)) (text m))) /\
  avatar_of user <> avatar_of assistant /\
  (display h1 = display h2 -> h1 = h2).
Proof.
  split; [apply length_map|]. split; [|split].
  - intros k m Hk. unfold display. now rewrite nth_error_map, Hk.
  - apply str_eqb_false. reflexivity.
  - revert h2. induction h1 as [|[r1 t1] h1 IH]; intros [|[r2 t2] h2];
      simpl; try discriminate; [reflexivity|].
    intros [= -> _ -> Hrest]. f_equal. now apply IH.
Qed.

Section PageFacts.

Variables model chat : Type.

Lemma mode_selector_notices (lib : client model chat)
    (api_key : option str) (ss : session_state chat) (ev : ui_event) :
  In ev (snd (mode_selector lib api_key ss)) ->
  (exists notice, ev = StInfo notice) \/ (exists notice, ev = StWarning notice).
Proof.
  unfold mode_selector.
  destruct api_key as [key|]; [destruct (truthy (Some key))|].
  - destruct (init_remote lib key ss) as [ss'|e]; simpl; [tauto|].
    intros [<- | []]. right. eexists; reflexivity.
  - simpl. intros [<- | []]. left. eexists; reflexivity.
  - simpl. intros [<- | []]. left. eexists; reflexivity.
Qed.

Lemma display_events (history : list message) (ev : ui_event) :
  In ev (display history) ->
  exists name avatar body, ev = StChatMessage name avatar body.
Proof.
  unfold display. rewrite in_map_iff. intros (m & <- & _).
  now eexists _, _, _.
Qed.

End PageFacts.

(** X16. The progress bar never gets a value outside its range: whatever
    a run finds and does, a progress call on its page is [n / 100] with [n]
    the score of the history found at the start, and [12 <= n <= 100]. *)
Theorem progress_is_always_in_range
    (model chat : Type) (unicode_lower : str -> N -> str -> str)
    (lib : client model chat) (api_key user_input : option str)
    (ss : session_state chat) (n d : Z) :
  In (StProgress n d)
     (page (script_run unicode_lower lib api_key user_input ss)) ->
  d = 100%Z /\
  n = compute_carbon_score (initial_history ss) /\
  (12 <= n <= 100)%Z.
Proof.
  rewrite script_run_unfold. simpl page. intros Hin.
  apply in_app_or in Hin. destruct Hin as [Hin | Hin].
  { apply mode_selector_notices in Hin.
    destruct Hin as [[? ?] | [? ?]]; discriminate. }
  simpl in Hin. destruct Hin as [Hin | [Hin | Hin]]; [discriminate | |].
  - injection Hin as <- <-. split; [reflexivity|]. split; [reflexivity|].
    unfold compute_carbon_score, len. lia.
  - destruct (fst (chat_input_block _ _ _ _)); [|destruct Hin].
    apply display_events in Hin. destruct Hin as (? & ? & ? & ?).
    discriminate.
Qed.

Lemma progress_is_always_in_range_witness :
  In (StProgress 12 100)
     (page (script_run keep_non_ascii working_client None None
              (fresh nat))) /\
  (12 <= 12 <= 100)%Z.
Proof.
  assert (Hin : In (StProgress 12 100)
                  (page (script_run keep_non_ascii working_client None None
                           (fresh nat))))
    by (simpl; tauto).
  split; [exact Hin|].
  exact (proj2 (proj2 (progress_is_always_in_range unit nat keep_non_ascii
                         working_client None None (fresh nat) 12 100 Hin))).
Defined.

(** ** The matcher, once more *)

Lemma contains_trans (q k' k : str) :
  contains q k' = true -> contains k' k = true -> contains q k = true.
Proof.
  intros Hq Hk. apply contains_split in Hq, Hk.
  destruct Hq as (a & b & ->). destruct Hk as (a' & b' & ->).
  replace (a ++ (a' ++ k ++ b') ++ b) with ((a ++ a') ++ k ++ (b' ++ b))
    by (now rewrite <- !app_assoc).
  apply contains_middle.
Qed.

(** X17. The keyword "tell me a story" decides nothing: whatever it matches
    is matched by "story", so the story test holds exactly when the
    lowercased query contains "story" or "bedtime". *)
Theorem tell_me_a_story_is_redundant (q : str) :
  any_in q story_keywords =
  contains q (py "story") || contains q (py "bedtime").
Proof.
  unfold any_in, story_keywords. simpl existsb. rewrite orb_false_r.
  destruct (contains q (py "tell me a story")) eqn:H.
  - rewrite (contains_trans q (py "tell me a story") (py "story") H)
      by reflexivity.
    reflexivity.
  - now rewrite orb_false_r.
Qed.

(** X18. On ASCII text the matcher ignores letter case altogether: two
    queries that differ only in the case of their letters get the same
    reply, whatever the Unicode database. *)
Theorem offline_reply_ignores_ascii_case
    (unicode_lower unicode_lower' : str -> N -> str -> str) (q1 q2 : str) :
  forallb is_ascii q1 = true ->
  same_ignoring_case q1 q2 ->
  offline_reply unicode_lower q1 = offline_reply unicode_lower' q2.
Proof.
  intros Hq1 Hsame.
  assert (Hq2 : forallb is_ascii q2 = true).
  { apply same_ignoring_case_ascii with q1; [|exact Hq1].
    unfold same_ignoring_case in *. now symmetry. }
  unfold offline_reply. rewrite !lower_ascii_query by assumption.
  unfold same_ignoring_case in Hsame. now rewrite Hsame.
Qed.

Lemma offline_reply_ignores_ascii_case_witness :
  offline_reply keep_non_ascii (py "BEDTIME story?") =
  offline_reply keep_non_ascii (py "bedtime Story?").
Proof.
  exact (offline_reply_ignores_ascii_case keep_non_ascii keep_non_ascii
           (py "BEDTIME story?") (py "bedtime Story?") eq_refl eq_refl).
Defined.
